(** * build_rgb: the GLAD alert raster to RGB encoder

    A shallow embedding of [src/batch/cpp/build_rgb.cpp] and the properties
    of its per-pixel codec and of its row-streaming loop.

    Conventions of the embedding:
    - a [uint16_t] or [uint8_t] sample is a [Z] in the range of its type;
      C++ [int] arithmetic is arithmetic on [Z] (no expression of the program
      leaves the range of a 32-bit [int] on 16-bit samples), [/] and [%] on
      [int] are [Z.quot] and [Z.rem], and the conversion performed by a store
      into a [uint8_t] cell is written out as [to_uint8];
    - a [std::string] is a [list ascii];
    - a library call that may throw returns a sum, [inl] carrying the
      exception;
    - a [double] is a binary64 primitive float;
    - the row buffers are lists read and updated by index;
    - the calls issued to the raster library are recorded, in order, as a
      list of events. *)

From Stdlib Require Import ZArith Lia Ascii List Bool.
From Stdlib Require Import Floats.PrimFloat.
From stdpp Require Import base list.

Local Open Scope Z_scope.

(** ** Machine integers *)

Definition uint16 (z : Z) : Prop := 0 <= z <= 65535.

Definition uint8 (z : Z) : Prop := 0 <= z <= 255.

(** Conversion of an [int] to [uint8_t]: reduction modulo 2^8. *)
Definition to_uint8 (z : Z) : Z := z mod 256.

Definition INT_MAX : Z := 2147483647.
Definition INT_MIN : Z := -2147483648.

(** ** Exceptions of the string library *)

Inductive exn : Type :=
  | invalid_argument
  | out_of_range.

(** ** [std::to_string], [std::string::substr], [std::stoi] *)

Module Str.

Definition digit_char (d : Z) : ascii := ascii_of_N (Z.to_N (48 + d)).

(** Value of a decimal digit character, if it is one. *)
Definition digit_val (c : ascii) : option Z :=
  let n := Z.of_N (N_of_ascii c) in
  if (48 <=? n) && (n <=? 57) then Some (n - 48) else None.

(** The decimal digits of a non-negative number, most significant first,
    pushed in front of [acc].  A 32-bit [int] has at most ten digits. *)
Fixpoint to_digits (fuel : nat) (n : Z) (acc : list ascii) : list ascii :=
  match fuel with
  | O => acc
  | S fuel' =>
      let acc' := digit_char (n mod 10) :: acc in
      if n / 10 =? 0 then acc' else to_digits fuel' (n / 10) acc'
  end.

(** [std::to_string(int)]: what [printf("%d")] prints. *)
Definition to_string (n : Z) : list ascii :=
  if n <? 0 then "-"%char :: to_digits 10 (- n) [] else to_digits 10 n [].

(** [s.substr(pos)]: the characters from [pos] to the end; throws
    [std::out_of_range] when [pos > s.size()]. *)
Definition substr (pos : nat) (s : list ascii) : exn + list ascii :=
  if (length s <? pos)%nat then inl out_of_range else inr (drop pos s).

(** [isspace] in the C locale. *)
Definition is_space (c : ascii) : bool :=
  let n := Z.of_N (N_of_ascii c) in
  (n =? 32) || ((9 <=? n) && (n <=? 13)).

Fixpoint skip_space (s : list ascii) : list ascii :=
  match s with
  | c :: s' => if is_space c then skip_space s' else s
  | [] => []
  end.

(** The values of the longest prefix of decimal digits. *)
Fixpoint digit_prefix (s : list ascii) : list Z :=
  match s with
  | c :: s' =>
      match digit_val c with
      | Some d => d :: digit_prefix s'
      | None => []
      end
  | [] => []
  end.

Definition digits_value (ds : list Z) : Z :=
  fold_left (fun acc d => 10 * acc + d) ds 0.

(** [std::stoi(s)] (base 10, no position argument): [strtol] on the
    string, [std::invalid_argument] when no digit could be converted,
    [std::out_of_range] when the value does not fit an [int]. *)
Definition stoi (s : list ascii) : exn + Z :=
  let s1 := skip_space s in
  let '(neg, s2) :=
    match s1 with
    | c :: r =>
        if Ascii.eqb c "-" then (true, r)
        else if Ascii.eqb c "+" then (false, r)
        else (false, s1)
    | [] => (false, s1)
    end in
  match digit_prefix s2 with
  | [] => inl invalid_argument
  | ds =>
      let v := if neg : bool then - digits_value ds else digits_value ds in
      if (INT_MIN <=? v) && (v <=? INT_MAX) then inr v else inl out_of_range
  end.

End Str.

(** ** The per-pixel codec (lines 85-109, the body of the column loop) *)

Record OutputPixel : Type := mkPixel {
  dayByte : Z;          (* out_data1[x] *)
  confidenceByte : Z;   (* out_data2[x] *)
  intensityByte : Z     (* out_data3[x] *)
}.

(** Lines 85-92: [total_days]. *)
Definition total_days (alert : Z) : Z :=
  if alert <? 20000 then 0
  else if alert <? 30000 then alert - 20000
  else alert - 30000.

(** Line 103: [stoi(to_string(in1_data[x]).substr(1)) % 255], before the
    store into the [uint8_t] cell. *)
Definition confidence_digits (alert : Z) : exn + Z :=
  match Str.substr 1 (Str.to_string alert) with
  | inl e => inl e
  | inr s =>
      match Str.stoi s with
      | inl e => inl e
      | inr v => inr (Z.rem v 255)
      end
  end.

(** [encode alert intensity] is one pass through the body of the column loop
    with [in1_data[x] = alert] and [in2_data[x] = intensity]; the result is
    the three bytes stored at column [x], or the exception that left the
    loop. *)
Definition encode (alert intensity : Z) : exn + OutputPixel :=
  let out1 := to_uint8 (Z.quot (total_days alert) 255) in
  if alert <? 20000 then
    inr (mkPixel out1 (to_uint8 0) (to_uint8 intensity))
  else
    match confidence_digits alert with
    | inl e => inl e
    | inr c =>
        let out2 := to_uint8 c in
        let out3 :=
          if (20000 <=? alert) && (alert <=? 29999)
          then to_uint8 (100 + intensity)
          else to_uint8 (200 + intensity) in
        inr (mkPixel out1 out2 out3)
    end.

(** The codec in closed form on integers, without strings: what [encode]
    computes on 16-bit samples (see [encode_uint16]). *)
Definition encode_closed (alert intensity : Z) : OutputPixel :=
  {| dayByte := total_days alert / 255;
     confidenceByte :=
       if alert <? 20000 then 0 else (alert mod 10000) mod 255;
     intensityByte :=
       (if alert <? 20000 then intensity
        else if alert <? 30000 then 100 + intensity
        else 200 + intensity) mod 256 |}.

(** The integer-arithmetic definition of the confidence byte, as the
    specification words it: the day offset of the alert's confidence class,
    reduced modulo 255. *)
Definition dayOffset_spec (alert : Z) : Z :=
  if alert <? 20000 then 0
  else if alert <=? 29999 then alert - 20000
  else alert - 30000.

Definition confidenceByte_spec (alert : Z) : Z := dayOffset_spec alert mod 255.

(** ** The raster library seen from [main] *)

Inductive InBand : Type := INBAND | INBAND2.
Inductive OutBand : Type := OUTBAND1 | OUTBAND2 | OUTBAND3.
Inductive CPLErr : Type := CE_None | CE_Failure.

(** [double GeoTransform[6]]. *)
Record geotransform : Type := mkGeoTransform {
  gt0 : float; gt1 : float; gt2 : float;
  gt3 : float; gt4 : float; gt5 : float
}.

(** A spatial reference: an EPSG code, or any other definition given by its
    text. *)
Inductive Srs : Type :=
  | EPSG (code : Z)
  | WKT (text : list ascii).

(** The five row buffers declared on lines 74-78. *)
Record Buffers : Type := mkBuffers {
  in1_data : list Z;
  in2_data : list Z;
  out_data1 : list Z;
  out_data2 : list Z;
  out_data3 : list Z
}.

(** What a run of the program meets: its argument count, the two opened
    input rasters and the behaviour of the library on every call.
    [read_row b y = None] is a [RasterIO] read that returns [CE_Failure]
    (the buffer is then taken to keep its contents); [write_row b y] is the
    status of the write of row [y] of band [b].  [stack] is what the row
    buffers hold when they are declared.  Console output is not part of the
    model, and both input files are taken to open. *)
Record World : Type := mkWorld {
  argc : Z;
  xsize : nat;
  ysize : nat;
  in_geotransform : geotransform;
  in_projection : Srs;
  gtiff_driver : bool;
  read_row : InBand -> nat -> option (list Z);
  write_row : OutBand -> nat -> CPLErr;
  stack : Buffers
}.

(** The calls issued to the library, in program order. *)
Inductive event : Type :=
  | EvCreate (width height : nat) (bands : nat)
  | EvSetGeoTransform (gt : geotransform)
  | EvSetProjection (srs : Srs)
  | EvRead (b : InBand) (y : nat) (r : CPLErr)
  | EvWrite (b : OutBand) (y : nat) (row : list Z) (r : CPLErr).

(** An event without the data it carries: which call, on which band and
    row, and for a read its status. *)
Inductive call : Type :=
  | CallSetup
  | CallRead (b : InBand) (y : nat) (r : CPLErr)
  | CallWrite (b : OutBand) (y : nat) (r : CPLErr).

Definition call_of (e : event) : call :=
  match e with
  | EvCreate _ _ _ | EvSetGeoTransform _ | EvSetProjection _ => CallSetup
  | EvRead b y r => CallRead b y r
  | EvWrite b y _ r => CallWrite b y r
  end.

Definition failed (e : event) : bool :=
  match e with
  | EvRead _ _ CE_Failure | EvWrite _ _ _ CE_Failure => true
  | _ => false
  end.

Record State : Type := mkState {
  bufs : Buffers;
  trace : list event
}.

(** A loop either runs to its end or is left by an exception. *)
Inductive result : Type :=
  | Done (st : State)
  | Threw (e : exn) (t : list event).

Inductive outcome : Type :=
  | Exit (code : Z)
  | Terminate (e : exn).

(** ** The loops of [main] *)

(** Lines 84-109 at column [x]. *)
Definition pixel_step (x : nat) (b : Buffers) : exn + Buffers :=
  match encode (in1_data b !!! x) (in2_data b !!! x) with
  | inl e => inl e
  | inr p =>
      inr {| in1_data := in1_data b;
             in2_data := in2_data b;
             out_data1 := <[x := dayByte p]> (out_data1 b);
             out_data2 := <[x := confidenceByte p]> (out_data2 b);
             out_data3 := <[x := intensityByte p]> (out_data3 b) |}
  end.

(** Line 83: [for(x=0; x<xsize; x++)], with [n] columns left from [x]. *)
Fixpoint pixel_loop (n x : nat) (b : Buffers) : exn + Buffers :=
  match n with
  | O => inr b
  | S n' =>
      match pixel_step x b with
      | inl e => inl e
      | inr b' => pixel_loop n' (S x) b'
      end
  end.

(** Lines 81-82: one [RasterIO(GF_Read, ...)]; its status is not looked
    at. *)
Definition read_into (w : World) (b : InBand) (y : nat) (buf : list Z)
  : list Z * CPLErr :=
  match read_row w b y with
  | Some row => (row, CE_None)
  | None => (buf, CE_Failure)
  end.

(** Lines 81-113: the body of the row loop at row [y]. *)
Definition row_step (w : World) (y : nat) (st : State) : result :=
  let '(d1, r1) := read_into w INBAND y (in1_data (bufs st)) in
  let '(d2, r2) := read_into w INBAND2 y (in2_data (bufs st)) in
  let t := trace st ++ [EvRead INBAND y r1; EvRead INBAND2 y r2] in
  let b := {| in1_data := d1; in2_data := d2;
              out_data1 := out_data1 (bufs st);
              out_data2 := out_data2 (bufs st);
              out_data3 := out_data3 (bufs st) |} in
  match pixel_loop (xsize w) 0 b with
  | inl e => Threw e t
  | inr b' =>
      Done {| bufs := b';
              trace := t ++
                [EvWrite OUTBAND1 y (out_data1 b') (write_row w OUTBAND1 y);
                 EvWrite OUTBAND2 y (out_data2 b') (write_row w OUTBAND2 y);
                 EvWrite OUTBAND3 y (out_data3 b') (write_row w OUTBAND3 y)] |}
  end.

(** Line 80: [for(y=0; y<ysize; y++)], with [n] rows left from [y]. *)
Fixpoint row_loop (w : World) (n y : nat) (st : State) : result :=
  match n with
  | O => Done st
  | S n' =>
      match row_step w y st with
      | Threw e t => Threw e t
      | Done st' => row_loop w n' (S y) st'
      end
  end.

(** Lines 47-48 and 66: the geotransform given to the output. *)
Definition adfGeoTransform (GeoTransform : geotransform) : geotransform :=
  let ulx := gt0 GeoTransform in
  let uly := gt3 GeoTransform in
  let pixelsize := gt1 GeoTransform in
  {| gt0 := ulx; gt1 := pixelsize; gt2 := 0%float;
     gt3 := uly; gt4 := 0%float; gt5 := ((-1) * pixelsize)%float |}.

(** Lines 64-68: creation of the output and its georeference. *)
Definition setup (w : World) : list event :=
  [EvCreate (xsize w) (ysize w) 3;
   EvSetGeoTransform (adfGeoTransform (in_geotransform w));
   EvSetProjection (EPSG 3857)].

Definition main (w : World) : outcome * list event :=
  if negb (argc w =? 4) then (Exit 1, [])
  else if negb (gtiff_driver w) then (Exit 1, [])
  else
    match row_loop w (ysize w) 0 {| bufs := stack w; trace := setup w |} with
    | Done st => (Exit 0, trace st)
    | Threw e t => (Terminate e, t)
    end.

(** ** Well-formed runs *)

Definition uint16b (z : Z) : bool := (0 <=? z) && (z <=? 65535).

(** A row buffer of [uint16_t[width]]. *)
Definition row16b (width : nat) (r : list Z) : bool :=
  (length r =? width)%nat && forallb uint16b r.

Definition read16b (width : nat) (o : option (list Z)) : bool :=
  match o with
  | Some r => row16b width r
  | None => true
  end.

(** Every row the library delivers, and every buffer as declared, has
    [xsize] cells of its type ([uint8_t] cells are only written, so their
    initial contents are free). *)
Definition wf_world (w : World) : bool :=
  forallb (fun y => read16b (xsize w) (read_row w INBAND y)
                    && read16b (xsize w) (read_row w INBAND2 y))
          (seq 0 (ysize w))
  && row16b (xsize w) (in1_data (stack w))
  && row16b (xsize w) (in2_data (stack w))
  && (length (out_data1 (stack w)) =? xsize w)%nat
  && (length (out_data2 (stack w)) =? xsize w)%nat
  && (length (out_data3 (stack w)) =? xsize w)%nat.

(** The calls of row [y]: two reads, then three writes. *)
Definition row_calls (w : World) (y : nat) : list call :=
  let status (o : option (list Z)) :=
    match o with Some _ => CE_None | None => CE_Failure end in
  [CallRead INBAND y (status (read_row w INBAND y));
   CallRead INBAND2 y (status (read_row w INBAND2 y));
   CallWrite OUTBAND1 y (write_row w OUTBAND1 y);
   CallWrite OUTBAND2 y (write_row w OUTBAND2 y);
   CallWrite OUTBAND3 y (write_row w OUTBAND3 y)].

(** The events of row [y] when both reads succeed and the row encodes to the
    pixels [px]. *)
Definition row_events (w : World) (y : nat) (px : list OutputPixel) : list event :=
  [EvRead INBAND y CE_None;
   EvRead INBAND2 y CE_None;
   EvWrite OUTBAND1 y (dayByte <$> px) (write_row w OUTBAND1 y);
   EvWrite OUTBAND2 y (confidenceByte <$> px) (write_row w OUTBAND2 y);
   EvWrite OUTBAND3 y (intensityByte <$> px) (write_row w OUTBAND3 y)].

(** A row of pixels is the transform of two rows of samples. *)
Definition row_encoded (r1 r2 : list Z) (px : list OutputPixel) : Prop :=
  Forall2 (fun ai p => encode ai.1 ai.2 = inr p) (zip r1 r2) px.

(** Two concrete runs: a 2x1 raster read without fault, and a 1x2 raster
    whose first read fails. *)
Definition blank (width : nat) : Buffers :=
  {| in1_data := replicate width 0; in2_data := replicate width 0;
     out_data1 := replicate width 0; out_data2 := replicate width 0;
     out_data3 := replicate width 0 |}.

Definition north_up : geotransform :=
  {| gt0 := 0; gt1 := 1; gt2 := 0; gt3 := 0; gt4 := 0; gt5 := (-1) |}%float.

Definition sheared : geotransform :=
  {| gt0 := 0; gt1 := 1; gt2 := 0.5; gt3 := 0; gt4 := 0; gt5 := (-2) |}%float.

Definition world_2x1 : World :=
  {| argc := 4; xsize := 2; ysize := 1;
     in_geotransform := north_up; in_projection := EPSG 4326;
     gtiff_driver := true;
     read_row := fun b y =>
       match b, y with
       | INBAND, O => Some [0; 30001]
       | INBAND2, O => Some [3; 3]
       | _, _ => None
       end;
     write_row := fun _ _ => CE_None;
     stack := blank 2 |}.

Definition world_read_fails : World :=
  {| argc := 4; xsize := 1; ysize := 2;
     in_geotransform := sheared; in_projection := EPSG 4326;
     gtiff_driver := true;
     read_row := fun b y =>
       match b, y with
       | INBAND, O => None
       | INBAND, _ => Some [30001]
       | INBAND2, _ => Some [3]
       end;
     write_row := fun _ _ => CE_None;
     stack := blank 1 |}.

(** ** Auxiliary notions for the proofs *)

Definition is_digit (d : Z) : Prop := 0 <= d <= 9.

(** The buffers hold [width] cells each, the input ones 16-bit samples. *)
Definition bufs_ok (width : nat) (b : Buffers) : Prop :=
  (length (in1_data b) = width /\ Forall uint16 (in1_data b)) /\
  (length (in2_data b) = width /\ Forall uint16 (in2_data b)) /\
  length (out_data1 b) = width /\
  length (out_data2 b) = width /\
  length (out_data3 b) = width.

(** Output buffer and pixel byte of an output band. *)
Definition out_band (k : OutBand) (b : Buffers) : list Z :=
  match k with
  | OUTBAND1 => out_data1 b
  | OUTBAND2 => out_data2 b
  | OUTBAND3 => out_data3 b
  end.

Definition out_byte (k : OutBand) (p : OutputPixel) : Z :=
  match k with
  | OUTBAND1 => dayByte p
  | OUTBAND2 => confidenceByte p
  | OUTBAND3 => intensityByte p
  end.

(** The pixel of column [j] of the input buffers, in closed form. *)
Definition cell (b : Buffers) (j : nat) : OutputPixel :=
  encode_closed (in1_data b !!! j) (in2_data b !!! j).

(** Two rows of samples encoded column by column, in closed form. *)
Definition encode_rows (r1 r2 : list Z) : list OutputPixel :=
  zip_with encode_closed r1 r2.

(** The contents of an input buffer after the read of row [y]. *)
Definition after_read (w : World) (b : InBand) (y : nat) (buf : list Z) : list Z :=
  (read_into w b y buf).1.

(** The buffers and the events of row [y] when no exception leaves the
    column loop, from the buffers [b] the row starts with. *)
Definition row_bufs (w : World) (y : nat) (b : Buffers) : Buffers :=
  let d1 := after_read w INBAND y (in1_data b) in
  let d2 := after_read w INBAND2 y (in2_data b) in
  {| in1_data := d1;
     in2_data := d2;
     out_data1 := dayByte <$> encode_rows d1 d2;
     out_data2 := confidenceByte <$> encode_rows d1 d2;
     out_data3 := intensityByte <$> encode_rows d1 d2 |}.

Definition row_trace (w : World) (y : nat) (b : Buffers) : list event :=
  let b' := row_bufs w y b in
  [EvRead INBAND y (read_into w INBAND y (in1_data b)).2;
   EvRead INBAND2 y (read_into w INBAND2 y (in2_data b)).2;
   EvWrite OUTBAND1 y (out_data1 b') (write_row w OUTBAND1 y);
   EvWrite OUTBAND2 y (out_data2 b') (write_row w OUTBAND2 y);
   EvWrite OUTBAND3 y (out_data3 b') (write_row w OUTBAND3 y)].

Fixpoint rows_bufs (w : World) (n y : nat) (b : Buffers) : Buffers :=
  match n with
  | O => b
  | S n' => rows_bufs w n' (S y) (row_bufs w y b)
  end.

Fixpoint rows_trace (w : World) (n y : nat) (b : Buffers) : list event :=
  match n with
  | O => []
  | S n' => row_trace w y b ++ rows_trace w n' (S y) (row_bufs w y b)
  end.

(** The same run on inputs with another geotransform and projection. *)
Definition with_georef (gt : geotransform) (srs : Srs) (w : World) : World :=
  {| argc := argc w; xsize := xsize w; ysize := ysize w;
     in_geotransform := gt; in_projection := srs;
     gtiff_driver := gtiff_driver w;
     read_row := read_row w; write_row := write_row w;
     stack := stack w |}.

Definition is_read (e : event) : bool :=
  match e with
  | EvRead _ _ _ => true
  | _ => false
  end.

(** Some row is read after a call has failed. *)
Fixpoint reads_after_failure (t : list event) : bool :=
  match t with
  | [] => false
  | e :: t' => (failed e && existsb is_read t') || reads_after_failure t'
  end.

(** Both reads of row [y] deliver a row of 16-bit samples, or fail. *)
Definition reads_ok (w : World) (y : nat) : Prop :=
  read16b (xsize w) (read_row w INBAND y) = true /\
  read16b (xsize w) (read_row w INBAND2 y) = true.

(** What line 103 leaves of a sample of two to five digits: the number
    without its leading decimal digit. *)
Definition drop_leading_digit (alert : Z) : Z :=
  if alert <? 100 then alert mod 10
  else if alert <? 1000 then alert mod 100
  else if alert <? 10000 then alert mod 1000
  else alert mod 10000.

(** Line 103 on the sample [alert] throws exactly when the sample has a
    single digit, and otherwise yields the remaining digits modulo 255. *)
Definition confidence_digits_check (alert : Z) : bool :=
  match confidence_digits alert with
  | inl invalid_argument => alert <=? 9
  | inl out_of_range => false
  | inr v => (9 <? alert) && (v =? drop_leading_digit alert mod 255)
  end.

(** The [n] integers from [lo] on. *)
Fixpoint zrange (n : nat) (lo : Z) : list Z :=
  match n with
  | O => []
  | S n' => lo :: zrange n' (lo + 1)
  end.

(** A pixel of bytes whose confidence byte is not 255. *)
Definition pixel_bytes (p : OutputPixel) : Prop :=
  uint8 (dayByte p) /\ 0 <= confidenceByte p <= 254 /\ uint8 (intensityByte p).

(** A row handed to the sink has [width] bytes, none of them 255 on
    band 2. *)
Definition write_ok (width : nat) (e : event) : Prop :=
  match e with
  | EvWrite k _ row _ =>
      length row = width /\
      Forall uint8 row /\
      (k = OUTBAND2 -> Forall (fun v => v <= 254) row)
  | _ => True
  end.

(** ** Decimal strings *)

Section Decimal.

Import Str.

Local Ltac digit_split d :=
  let H := fresh in
  assert (H : d = 0 \/ d = 1 \/ d = 2 \/ d = 3 \/ d = 4 \/
              d = 5 \/ d = 6 \/ d = 7 \/ d = 8 \/ d = 9) by lia;
  repeat (destruct H as [H | H]; [subst d | ]); [.. | subst d].

Lemma digit_val_char (d : Z) : 0 <= d <= 9 -> digit_val (digit_char d) = Some d.
Proof. intros Hd. digit_split d; reflexivity. Qed.

Lemma digit_char_not_space (d : Z) : 0 <= d <= 9 -> is_space (digit_char d) = false.
Proof. intros Hd. digit_split d; reflexivity. Qed.

Lemma digit_char_not_sign (d : Z) :
  0 <= d <= 9 ->
  Ascii.eqb (digit_char d) "-" = false /\ Ascii.eqb (digit_char d) "+" = false.
Proof. intros Hd. digit_split d; split; reflexivity. Qed.

Lemma digit_prefix_chars (ds : list Z) :
  Forall is_digit ds -> digit_prefix (digit_char <$> ds) = ds.
Proof.
  induction 1 as [ | d ds Hd _ IH]; csimpl; [reflexivity | ].
  rewrite digit_val_char by exact Hd. now rewrite IH.
Qed.

(** [stoi] on a non-empty string of digits reads all of them. *)
Lemma stoi_digits (d : Z) (ds : list Z) :
  Forall is_digit (d :: ds) ->
  digits_value (d :: ds) <= INT_MAX ->
  0 <= digits_value (d :: ds) ->
  stoi (digit_char <$> (d :: ds)) = inr (digits_value (d :: ds)).
Proof.
  intros Hall Hmax Hmin.
  pose proof (Forall_inv Hall) as Hd.
  unfold stoi. cbn [fmap list_fmap skip_space].
  rewrite digit_char_not_space by exact Hd.
  destruct (digit_char_not_sign d Hd) as [-> ->].
  change (digit_char d :: (digit_char <$> ds)) with (digit_char <$> (d :: ds)).
  rewrite digit_prefix_chars by exact Hall.
  replace ((INT_MIN <=? digits_value (d :: ds)) && (digits_value (d :: ds) <=? INT_MAX))
    with true; [reflexivity | ].
  symmetry. apply andb_true_iff. unfold INT_MIN. split; apply Z.leb_le; lia.
Qed.

(** The five digits of a number between 10000 and 99999. *)
Lemma to_string_5 (n : Z) :
  10000 <= n <= 99999 ->
  to_string n =
    digit_char <$> [n / 10000; n / 1000 mod 10; n / 100 mod 10; n / 10 mod 10; n mod 10].
Proof.
  intros Hn. unfold to_string.
  destruct (Z.ltb_spec n 0) as [Hneg | _]; [lia | ].
  cbn [to_digits fmap list_fmap].
  assert (Hq1 : (n / 10 =? 0) = false)
    by (apply Z.eqb_neq; Z.div_mod_to_equations; lia).
  assert (Hq2 : (n / 10 / 10 =? 0) = false)
    by (apply Z.eqb_neq; Z.div_mod_to_equations; lia).
  assert (Hq3 : (n / 10 / 10 / 10 =? 0) = false)
    by (apply Z.eqb_neq; Z.div_mod_to_equations; lia).
  assert (Hq4 : (n / 10 / 10 / 10 / 10 =? 0) = false)
    by (apply Z.eqb_neq; Z.div_mod_to_equations; lia).
  assert (Hq5 : (n / 10 / 10 / 10 / 10 / 10 =? 0) = true)
    by (apply Z.eqb_eq; Z.div_mod_to_equations; lia).
  rewrite Hq1, Hq2, Hq3, Hq4, Hq5.
  rewrite !Z.div_div by lia.
  change (10 * 10) with 100. change (10 * 100) with 1000.
  change (10 * 1000) with 10000.
  replace ((n / 10000) mod 10) with (n / 10000)
    by (Z.div_mod_to_equations; lia).
  reflexivity.
Qed.

Lemma digits_value_4 (n : Z) :
  0 <= n ->
  digits_value [n / 1000 mod 10; n / 100 mod 10; n / 10 mod 10; n mod 10] = n mod 10000.
Proof.
  intros Hn. unfold digits_value. cbn [fold_left].
  Z.div_mod_to_equations. lia.
Qed.

(** Dropping the first of the five digits and reading the rest back. *)
Lemma drop_first_digit (n : Z) :
  10000 <= n <= 99999 ->
  length (to_string n) = 5%nat /\
  exists s, substr 1 (to_string n) = inr s /\ length s = 4%nat /\
            stoi s = inr (n mod 10000).
Proof.
  intros Hn. rewrite to_string_5 by exact Hn. split; [reflexivity | ].
  eexists. split; [reflexivity | ]. split; [reflexivity | ].
  cbn [drop fmap list_fmap].
  change (?a :: ?b :: ?c :: [digit_char ?d])
    with (digit_char <$> [n / 1000 mod 10; n / 100 mod 10; n / 10 mod 10; n mod 10]).
  rewrite <- digits_value_4 by lia.
  apply stoi_digits.
  - repeat constructor; unfold is_digit; Z.div_mod_to_equations; lia.
  - rewrite digits_value_4 by lia. unfold INT_MAX. Z.div_mod_to_equations; lia.
  - rewrite digits_value_4 by lia. Z.div_mod_to_equations; lia.
Qed.

End Decimal.

(** The printer and the parser at the ends of the [int] range. *)
Example to_string_INT_MAX :
  Str.stoi (Str.to_string INT_MAX) = inr INT_MAX /\
  length (Str.to_string INT_MAX) = 10%nat.
Proof. split; reflexivity. Qed.

Example to_string_INT_MIN :
  Str.stoi (Str.to_string INT_MIN) = inr INT_MIN /\
  length (Str.to_string INT_MIN) = 11%nat.
Proof. split; reflexivity. Qed.

Example stoi_empty : Str.stoi [] = inl invalid_argument.
Proof. reflexivity. Qed.

Example substr_past_end : Str.substr 1 [] = inl out_of_range.
Proof. reflexivity. Qed.

(** ** The codec on 16-bit samples *)

Lemma uint16b_spec (z : Z) : uint16b z = true <-> uint16 z.
Proof.
  unfold uint16b, uint16. rewrite andb_true_iff, !Z.leb_le. tauto.
Qed.

Lemma to_uint8_id (z : Z) : uint8 z -> to_uint8 z = z.
Proof. unfold uint8, to_uint8. intros Hz. apply Z.mod_small. lia. Qed.

(** Line 103 on an alert sample: the last four decimal digits, modulo 255. *)
Lemma confidence_digits_alert (alert : Z) :
  20000 <= alert <= 65535 ->
  confidence_digits alert = inr ((alert mod 10000) mod 255).
Proof.
  intros Ha. unfold confidence_digits.
  destruct (drop_first_digit alert) as (_ & s & -> & _ & ->); [lia | ].
  f_equal. apply Z.rem_mod_nonneg; [ | lia].
  apply Z.mod_pos_bound. lia.
Qed.

Lemma total_days_range (alert : Z) : uint16 alert -> 0 <= total_days alert <= 35535.
Proof.
  unfold uint16, total_days. intros Ha.
  destruct (Z.ltb_spec alert 20000); [lia | ].
  destruct (Z.ltb_spec alert 30000); lia.
Qed.

(** [encode] never throws on a 16-bit alert sample, and its three bytes are
    those of the closed form. *)
Lemma encode_uint16 (alert intensity : Z) :
  uint16 alert -> encode alert intensity = inr (encode_closed alert intensity).
Proof.
  intros Ha. pose proof (total_days_range alert Ha) as Htd.
  assert (Hout1 : to_uint8 (Z.quot (total_days alert) 255) = total_days alert / 255).
  { rewrite Z.quot_div_nonneg by lia. apply to_uint8_id. unfold uint8.
    Z.div_mod_to_equations. lia. }
  unfold encode, encode_closed. rewrite Hout1.
  destruct (Z.ltb_spec alert 20000) as [Hlt | Hge]; [reflexivity | ].
  rewrite confidence_digits_alert by (unfold uint16 in Ha; lia).
  rewrite to_uint8_id by (unfold uint8; Z.div_mod_to_equations; lia).
  destruct (Z.ltb_spec alert 30000) as [Hlt3 | Hge3].
  - replace ((20000 <=? alert) && (alert <=? 29999)) with true; [reflexivity | ].
    symmetry. apply andb_true_iff. split; apply Z.leb_le; lia.
  - replace ((20000 <=? alert) && (alert <=? 29999)) with false; [reflexivity | ].
    symmetry. apply andb_false_iff. right. apply Z.leb_gt. lia.
Qed.

(** The scenarios of the specification. *)
Example encode_scenarios :
  encode 0 5 = inr (mkPixel 0 0 5) /\
  encode 20100 10 = inr (mkPixel 0 100 110) /\
  encode 30300 0 = inr (mkPixel 1 45 200) /\
  encode 25500 0 = inr (mkPixel 21 145 100).
Proof. repeat split. Qed.

(** The three values stored are bytes. *)
Lemma encode_closed_bytes (alert intensity : Z) :
  uint16 alert ->
  uint8 (dayByte (encode_closed alert intensity)) /\
  uint8 (confidenceByte (encode_closed alert intensity)) /\
  uint8 (intensityByte (encode_closed alert intensity)).
Proof.
  intros Ha. pose proof (total_days_range alert Ha) as Htd.
  unfold uint8, encode_closed; cbn [dayByte confidenceByte intensityByte].
  repeat split; try (destruct (alert <? 20000)); Z.div_mod_to_equations; lia.
Qed.

(** The last four digits of an alert of class A or B are its day offset. *)
Lemma low_digits_class (alert : Z) :
  (20000 <= alert <= 29999 -> alert mod 10000 = alert - 20000) /\
  (30000 <= alert <= 39999 -> alert mod 10000 = alert - 30000).
Proof. split; intros Ha; Z.div_mod_to_equations; lia. Qed.

(** C1. For an alert sample in [20000, 29999] and a 16-bit intensity sample,
    [encode] returns dayByte = (alert - 20000) / 255, confidenceByte =
    (alert - 20000) mod 255 and intensityByte = (100 + intensity) mod 256;
    for an alert sample in [30000, 39999] it returns the same with 30000 in
    place of 20000 and 200 in place of 100.  The intensity byte wraps. *)
Theorem encode_alert_classes (alert intensity : Z) :
  uint16 intensity ->
  (20000 <= alert <= 29999 ->
   encode alert intensity =
     inr {| dayByte := (alert - 20000) / 255;
            confidenceByte := (alert - 20000) mod 255;
            intensityByte := (100 + intensity) mod 256 |}) /\
  (30000 <= alert <= 39999 ->
   encode alert intensity =
     inr {| dayByte := (alert - 30000) / 255;
            confidenceByte := (alert - 30000) mod 255;
            intensityByte := (200 + intensity) mod 256 |}).
Proof.
  intros _. destruct (low_digits_class alert) as [HA HB].
  split; intros Ha; rewrite encode_uint16 by (unfold uint16; lia);
    unfold encode_closed, total_days.
  - rewrite HA by exact Ha.
    destruct (Z.ltb_spec alert 20000); [lia | ].
    destruct (Z.ltb_spec alert 30000); [reflexivity | lia].
  - rewrite HB by exact Ha.
    destruct (Z.ltb_spec alert 20000); [lia | ].
    destruct (Z.ltb_spec alert 30000); [lia | reflexivity].
Qed.

Lemma encode_alert_classes_witness :
  encode 25500 300 = inr (mkPixel 21 145 144) /\
  encode 30300 0 = inr (mkPixel 1 45 200).
Proof.
  split.
  - apply (proj1 (encode_alert_classes 25500 300 ltac:(unfold uint16; lia))). lia.
  - apply (proj2 (encode_alert_classes 30300 0 ltac:(unfold uint16; lia))). lia.
Defined.

(** C2. For an alert sample below 20000 and a 16-bit intensity sample,
    [encode] returns (0, 0, intensity mod 256): no class offset is added to
    the intensity, which is only truncated to 8 bits. *)
Theorem encode_no_alert (alert intensity : Z) :
  uint16 alert -> uint16 intensity -> alert < 20000 ->
  encode alert intensity =
    inr {| dayByte := 0; confidenceByte := 0; intensityByte := intensity mod 256 |}.
Proof.
  intros _ _ Ha. unfold encode, total_days.
  destruct (Z.ltb_spec alert 20000); [reflexivity | lia].
Qed.

Lemma encode_no_alert_witness :
  encode 19999 1000 = inr (mkPixel 0 0 232).
Proof.
  apply (encode_no_alert 19999 1000); unfold uint16; lia.
Defined.

(** For an alert at or above 30000 the last four digits reduced modulo 255
    agree with (alert - 30000) mod 255 only up to 39999. *)
Lemma low_digits_mod255 (alert : Z) :
  30000 <= alert <= 65535 ->
  (alert mod 10000) mod 255 = (alert - 30000) mod 255 <-> alert <= 39999.
Proof.
  intros Ha. split.
  - intros Heq.
    destruct (Z.le_gt_cases alert 39999) as [Hle | Hgt]; [exact Hle | exfalso].
    assert (Hk : alert mod 10000 = alert - 40000 \/
                 alert mod 10000 = alert - 50000 \/
                 alert mod 10000 = alert - 60000)
      by (Z.div_mod_to_equations; lia).
    destruct Hk as [Hk | [Hk | Hk]]; rewrite Hk in Heq;
      Z.div_mod_to_equations; lia.
  - intros Hle. now rewrite (proj2 (low_digits_class alert)) by lia.
Qed.

(** C3 (as amended). For an alert sample of 30000 or more, over the whole
    16-bit domain, [encode] treats the pixel as class B (day byte from
    alert - 30000, intensity offset 200) and returns confidenceByte =
    (alert mod 10000) mod 255, the last four decimal digits reduced modulo
    255; this is (alert - 30000) mod 255 exactly when alert <= 39999. *)
Theorem encode_class_B_confidence (alert intensity : Z) :
  uint16 alert -> uint16 intensity -> 30000 <= alert ->
  exists p,
    encode alert intensity = inr p /\
    dayByte p = (alert - 30000) / 255 /\
    intensityByte p = (200 + intensity) mod 256 /\
    confidenceByte p = (alert mod 10000) mod 255 /\
    (confidenceByte p = (alert - 30000) mod 255 <-> alert <= 39999).
Proof.
  intros Ha _ Hge. exists (encode_closed alert intensity).
  split; [apply encode_uint16; exact Ha | ].
  unfold encode_closed, total_days. cbn [dayByte intensityByte confidenceByte].
  destruct (Z.ltb_spec alert 20000); [lia | ].
  destruct (Z.ltb_spec alert 30000); [lia | ].
  repeat split; try reflexivity; apply low_digits_mod255; unfold uint16 in Ha; lia.
Qed.

Lemma encode_class_B_confidence_witness :
  exists p,
    encode 40000 0 = inr p /\
    dayByte p = 39 /\ intensityByte p = 200 /\ confidenceByte p = 0 /\
    (confidenceByte p = 55 <-> 40000 <= 39999).
Proof.
  apply (encode_class_B_confidence 40000 0); unfold uint16; lia.
Defined.

(** C3 as stated fails at alert = 40000: the code returns confidence byte 0,
    the claim asks for (40000 - 30000) mod 255 = 55. *)
Lemma encode_class_B_confidence_counterexample :
  encode 40000 0 = inr (mkPixel 39 0 200) /\
  (40000 - 30000) mod 255 = 55 /\
  ~ (forall alert intensity,
       uint16 alert -> uint16 intensity -> 30000 <= alert ->
       exists p, encode alert intensity = inr p /\
                 confidenceByte p = (alert - 30000) mod 255).
Proof.
  split; [reflexivity | ]. split; [reflexivity | ].
  intros Hclaim.
  destruct (Hclaim 40000 0) as (p & Hp & Hc); try (unfold uint16; lia).
  change (encode 40000 0) with (@inr exn _ (mkPixel 39 0 200)) in Hp.
  injection Hp as <-. discriminate Hc.
Qed.

(** C4 (as amended). For an alert sample above 39999 the pixel is treated as
    class B (intensity offset 200); the day byte is (alert - 30000) / 255,
    by plain subtraction with no reduction modulo 10000, and the confidence
    byte is ((alert - 30000) mod 10000) mod 255. *)
Theorem encode_above_range (alert intensity : Z) :
  uint16 alert -> uint16 intensity -> 39999 < alert ->
  exists p,
    encode alert intensity = inr p /\
    intensityByte p = (200 + intensity) mod 256 /\
    dayByte p = (alert - 30000) / 255 /\
    confidenceByte p = ((alert - 30000) mod 10000) mod 255.
Proof.
  intros Ha _ Hgt. exists (encode_closed alert intensity).
  split; [apply encode_uint16; exact Ha | ].
  unfold encode_closed, total_days. cbn [dayByte intensityByte confidenceByte].
  destruct (Z.ltb_spec alert 20000); [lia | ].
  destruct (Z.ltb_spec alert 30000); [lia | ].
  repeat split. f_equal. Z.div_mod_to_equations. lia.
Qed.

Lemma encode_above_range_witness :
  exists p,
    encode 65535 65535 = inr p /\
    intensityByte p = 199 /\ dayByte p = 139 /\ confidenceByte p = 180.
Proof.
  apply (encode_above_range 65535 65535); unfold uint16; lia.
Defined.

(** C4 as stated fails at alert = 40000: the code returns day byte
    (40000 - 30000) / 255 = 39, the claim asks for
    ((40000 - 30000) mod 10000) / 255 = 0. *)
Lemma encode_above_range_counterexample :
  encode 40000 0 = inr (mkPixel 39 0 200) /\
  ((40000 - 30000) mod 10000) / 255 = 0 /\
  ~ (forall alert intensity,
       uint16 alert -> uint16 intensity -> 39999 < alert ->
       exists p, encode alert intensity = inr p /\
                 dayByte p = ((alert - 30000) mod 10000) / 255 /\
                 confidenceByte p = ((alert - 30000) mod 10000) mod 255).
Proof.
  split; [reflexivity | ]. split; [reflexivity | ].
  intros Hclaim.
  destruct (Hclaim 40000 0) as (p & Hp & Hd & _); try (unfold uint16; lia).
  change (encode 40000 0) with (@inr exn _ (mkPixel 39 0 200)) in Hp.
  injection Hp as <-. discriminate Hd.
Qed.

(** C5. On the intended range [20000, 39999] the derivation of the confidence
    byte through the decimal string (print the alert, drop the first digit,
    parse the rest, reduce modulo 255) equals the integer definition: the
    day offset (alert - 20000 up to 29999, alert - 30000 from 30000) modulo
    255. *)
Theorem confidence_digits_refines_spec (alert : Z) :
  20000 <= alert <= 39999 ->
  confidence_digits alert = inr (confidenceByte_spec alert) /\
  dayOffset_spec alert = (if alert <=? 29999 then alert - 20000 else alert - 30000).
Proof.
  intros Ha. unfold confidenceByte_spec, dayOffset_spec.
  rewrite confidence_digits_alert by lia.
  destruct (low_digits_class alert) as [HA HB].
  destruct (Z.ltb_spec alert 20000); [lia | ].
  destruct (Z.leb_spec alert 29999).
  - rewrite HA by lia. split; reflexivity.
  - rewrite HB by lia. split; reflexivity.
Qed.

Lemma confidence_digits_refines_spec_witness :
  confidence_digits 25500 = inr 145 /\ dayOffset_spec 25500 = 5500.
Proof.
  apply (confidence_digits_refines_spec 25500). lia.
Defined.

(** C9. For a 16-bit alert sample of 20000 or more, the decimal string has
    exactly five characters; dropping the first leaves four, which [stoi]
    parses without throwing, to alert mod 10000. *)
Theorem alert_string_parses (alert : Z) :
  uint16 alert -> 20000 <= alert ->
  length (Str.to_string alert) = 5%nat /\
  exists s,
    Str.substr 1 (Str.to_string alert) = inr s /\
    length s = 4%nat /\
    Str.stoi s = inr (alert mod 10000).
Proof.
  intros Ha Hge. apply drop_first_digit. unfold uint16 in Ha. lia.
Qed.

Lemma alert_string_parses_witness :
  length (Str.to_string 65535) = 5%nat /\
  exists s,
    Str.substr 1 (Str.to_string 65535) = inr s /\
    length s = 4%nat /\
    Str.stoi s = inr 5535.
Proof.
  apply (alert_string_parses 65535); unfold uint16; lia.
Defined.

(** C10. For every pair of 16-bit samples the confidence byte lies in
    [0, 254]: 255 never appears in output band 2. *)
Theorem confidenceByte_range (alert intensity : Z) :
  uint16 alert -> uint16 intensity ->
  exists p, encode alert intensity = inr p /\ 0 <= confidenceByte p <= 254.
Proof.
  intros Ha _. exists (encode_closed alert intensity).
  split; [apply encode_uint16; exact Ha | ].
  unfold encode_closed. cbn [confidenceByte].
  destruct (Z.ltb_spec alert 20000); [lia | ].
  Z.div_mod_to_equations. lia.
Qed.

Lemma confidenceByte_range_witness :
  exists p, encode 20254 7 = inr p /\ 0 <= confidenceByte p <= 254.
Proof.
  apply (confidenceByte_range 20254 7); unfold uint16; lia.
Defined.

(** ** The column loop *)

Lemma row16b_spec (width : nat) (r : list Z) :
  row16b width r = true <-> length r = width /\ Forall uint16 r.
Proof.
  unfold row16b. rewrite andb_true_iff, Nat.eqb_eq, forallb_forall, Forall_forall.
  setoid_rewrite uint16b_spec. setoid_rewrite list_elem_of_In. tauto.
Qed.

Section PixelLoop.

Variable width : nat.

Lemma pixel_step_ok (x : nat) (b : Buffers) :
  bufs_ok width b -> (x < width)%nat ->
  pixel_step x b =
    inr {| in1_data := in1_data b;
           in2_data := in2_data b;
           out_data1 := <[x := dayByte (cell b x)]> (out_data1 b);
           out_data2 := <[x := confidenceByte (cell b x)]> (out_data2 b);
           out_data3 := <[x := intensityByte (cell b x)]> (out_data3 b) |}.
Proof.
  intros ((Hl1 & H1) & _) Hx. unfold pixel_step.
  rewrite encode_uint16; [reflexivity | ].
  apply Forall_lookup_total_1; [exact H1 | lia].
Qed.

(** [n] columns from [x] on: the cells before [x] keep their contents, the
    others hold the bytes of their pixel. *)
Lemma pixel_loop_inv (n : nat) :
  forall (x : nat) (b : Buffers),
    bufs_ok width b -> (x + n = width)%nat ->
    exists b',
      pixel_loop n x b = inr b' /\
      in1_data b' = in1_data b /\
      in2_data b' = in2_data b /\
      forall k,
        length (out_band k b') = width /\
        forall j,
          ((j < x)%nat -> out_band k b' !! j = out_band k b !! j) /\
          ((x <= j < width)%nat ->
           out_band k b' !! j = Some (out_byte k (cell b j))).
Proof.
  induction n as [ | n IH]; intros x b Hok Hx.
  - exists b. repeat split; try reflexivity; try lia.
    destruct Hok as (_ & _ & ? & ? & ?). now destruct k.
  - cbn [pixel_loop]. rewrite pixel_step_ok by (exact Hok || lia).
    set (b1 := mkBuffers _ _ _ _ _).
    assert (Hok1 : bufs_ok width b1).
    { destruct Hok as (? & ? & ? & ? & ?). unfold bufs_ok, b1; cbn.
      rewrite !length_insert. tauto. }
    destruct (IH (S x) b1 Hok1 ltac:(lia)) as (b' & Hrun & Hi1 & Hi2 & Hout).
    exists b'. split; [exact Hrun | ]. split; [exact Hi1 | ]. split; [exact Hi2 | ].
    intros k. destruct (Hout k) as [Hlen Hj]. split; [exact Hlen | ].
    assert (Hb1 : out_band k b1 = <[x := out_byte k (cell b x)]> (out_band k b))
      by now destruct k.
    assert (Hlenb : length (out_band k b) = width).
    { destruct Hok as (_ & _ & ? & ? & ?). now destruct k. }
    intros j. destruct (Hj j) as [Hbefore Hafter]. split.
    + intros Hlt. rewrite Hbefore by lia. rewrite Hb1.
      apply list_lookup_insert_ne. lia.
    + intros Hin. destruct (decide (j = x)) as [-> | Hne].
      * rewrite Hbefore by lia. rewrite Hb1.
        apply list_lookup_insert_eq. lia.
      * rewrite Hafter by lia. reflexivity.
Qed.

(** The whole loop stores the encoded row in the three output buffers. *)
Lemma pixel_loop_row (b : Buffers) :
  bufs_ok width b ->
  pixel_loop width 0 b =
    inr {| in1_data := in1_data b;
           in2_data := in2_data b;
           out_data1 := dayByte <$> encode_rows (in1_data b) (in2_data b);
           out_data2 := confidenceByte <$> encode_rows (in1_data b) (in2_data b);
           out_data3 := intensityByte <$> encode_rows (in1_data b) (in2_data b) |}.
Proof.
  intros Hok.
  destruct (pixel_loop_inv width 0 b Hok eq_refl) as (b' & -> & Hi1 & Hi2 & Hout).
  assert (Hband : forall k,
             out_band k b' = out_byte k <$> encode_rows (in1_data b) (in2_data b)).
  { intros k. destruct (Hout k) as [Hlen Hj].
    destruct Hok as ((Hl1 & _) & (Hl2 & _) & _).
    apply list_eq. intros j.
    rewrite list_lookup_fmap. unfold encode_rows. rewrite lookup_zip_with.
    destruct (decide (j < width)%nat) as [Hlt | Hge].
    - rewrite (proj2 (Hj j)) by lia.
      rewrite (list_lookup_lookup_total_lt (in1_data b) j) by lia.
      rewrite (list_lookup_lookup_total_lt (in2_data b) j) by lia.
      reflexivity.
    - rewrite (lookup_ge_None_2 (out_band k b')) by lia.
      rewrite (lookup_ge_None_2 (in1_data b)) by lia. reflexivity. }
  pose proof (Hband OUTBAND1) as E1. pose proof (Hband OUTBAND2) as E2.
  pose proof (Hband OUTBAND3) as E3. cbn in E1, E2, E3.
  destruct b' as [i1 i2 o1 o2 o3]. cbn in *. now subst.
Qed.

End PixelLoop.

(** ** The row loop *)

Section RowLoop.

Variable w : World.

Lemma after_read_ok (b : InBand) (y : nat) (buf : list Z) :
  read16b (xsize w) (read_row w b y) = true ->
  length buf = xsize w /\ Forall uint16 buf ->
  length (after_read w b y buf) = xsize w /\ Forall uint16 (after_read w b y buf).
Proof.
  unfold after_read, read_into, read16b. intros Hr Hbuf.
  destruct (read_row w b y) as [row | ]; cbn; [ | exact Hbuf].
  now apply row16b_spec.
Qed.

Lemma row_bufs_ok (y : nat) (b : Buffers) :
  reads_ok w y -> bufs_ok (xsize w) b -> bufs_ok (xsize w) (row_bufs w y b).
Proof.
  intros [Hr1 Hr2] (H1 & H2 & _).
  pose proof (after_read_ok INBAND y _ Hr1 H1) as H1'.
  pose proof (after_read_ok INBAND2 y _ Hr2 H2) as H2'.
  unfold bufs_ok, row_bufs; cbn.
  split; [exact H1' | ]. split; [exact H2' | ].
  unfold encode_rows. rewrite !length_fmap, !length_zip_with. lia.
Qed.

Lemma row_step_ok (y : nat) (st : State) :
  reads_ok w y -> bufs_ok (xsize w) (bufs st) ->
  row_step w y st =
    Done {| bufs := row_bufs w y (bufs st);
            trace := trace st ++ row_trace w y (bufs st) |}.
Proof.
  intros Hr Hok. pose proof (row_bufs_ok y _ Hr Hok) as Hok'.
  unfold row_step, row_trace, row_bufs, after_read in *.
  destruct (read_into w INBAND y (in1_data (bufs st))) as [d1 r1].
  destruct (read_into w INBAND2 y (in2_data (bufs st))) as [d2 r2].
  cbn [fst snd] in *.
  rewrite (pixel_loop_row (xsize w)).
  - cbn. now rewrite <- app_assoc.
  - destruct Hok' as (? & ? & _), Hok as (_ & _ & ? & ? & ?).
    unfold bufs_ok; cbn. tauto.
Qed.

Lemma row_loop_ok (n : nat) :
  forall (y : nat) (st : State),
    (forall y', (y <= y' < y + n)%nat -> reads_ok w y') ->
    bufs_ok (xsize w) (bufs st) ->
    row_loop w n y st =
      Done {| bufs := rows_bufs w n y (bufs st);
              trace := trace st ++ rows_trace w n y (bufs st) |}.
Proof.
  induction n as [ | n IH]; intros y st Hr Hok; cbn [row_loop rows_bufs rows_trace].
  - rewrite app_nil_r. now destruct st.
  - rewrite row_step_ok by (apply Hr; lia) || exact Hok.
    rewrite IH; cbn [bufs trace].
    + now rewrite <- app_assoc.
    + intros y' Hy'. apply Hr. lia.
    + apply row_bufs_ok; [apply Hr; lia | exact Hok].
Qed.

(** The calls of the loop are those of its rows, whatever the buffers
    hold. *)
Lemma rows_trace_calls (n : nat) :
  forall (y : nat) (b : Buffers),
    call_of <$> rows_trace w n y b = flat_map (row_calls w) (seq y n).
Proof.
  induction n as [ | n IH]; intros y b; cbn [rows_trace seq flat_map].
  - reflexivity.
  - rewrite fmap_app, IH. f_equal.
    unfold row_trace, row_calls, read_into; cbn.
    now destruct (read_row w INBAND y), (read_row w INBAND2 y).
Qed.

(** The events of the loop when every read delivers its row. *)
Lemma rows_trace_events (band1 band2 : nat -> list Z) (n : nat) :
  forall (y : nat) (b : Buffers),
    (forall y', (y <= y' < y + n)%nat ->
                read_row w INBAND y' = Some (band1 y') /\
                read_row w INBAND2 y' = Some (band2 y')) ->
    rows_trace w n y b =
      flat_map (fun y' => row_events w y' (encode_rows (band1 y') (band2 y')))
               (seq y n).
Proof.
  induction n as [ | n IH]; intros y b Hr; cbn [rows_trace seq flat_map].
  - reflexivity.
  - rewrite IH by (intros y' Hy'; apply Hr; lia). f_equal.
    destruct (Hr y ltac:(lia)) as [H1 H2].
    unfold row_trace, row_events, row_bufs, after_read, read_into.
    rewrite H1, H2. reflexivity.
Qed.

Lemma rows_trace_georef (gt : geotransform) (srs : Srs) (n : nat) :
  forall (y : nat) (b : Buffers),
    rows_trace (with_georef gt srs w) n y b = rows_trace w n y b.
Proof.
  induction n as [ | n IH]; intros y b; cbn [rows_trace]; [reflexivity | ].
  rewrite IH. reflexivity.
Qed.

Lemma wf_world_reads :
  wf_world w = true ->
  (forall y, (y < ysize w)%nat -> reads_ok w y) /\ bufs_ok (xsize w) (stack w).
Proof.
  unfold wf_world. rewrite !andb_true_iff, !Nat.eqb_eq, !row16b_spec.
  intros (((((Hrows & H1) & H2) & H3) & H4) & H5).
  split; [ | unfold bufs_ok; tauto].
  intros y Hy. rewrite forallb_forall in Hrows.
  specialize (Hrows y). rewrite andb_true_iff in Hrows.
  apply Hrows, in_seq. lia.
Qed.

(** A well-formed run ends with exit code 0 after the calls of every
    row. *)
Lemma main_runs :
  argc w = 4 -> gtiff_driver w = true -> wf_world w = true ->
  main w = (Exit 0, setup w ++ rows_trace w (ysize w) 0 (stack w)).
Proof.
  intros Hargc Hdrv Hwf. destruct (wf_world_reads Hwf) as [Hr Hok].
  unfold main. rewrite Hargc, Hdrv. cbn [Z.eqb Pos.eqb negb].
  rewrite row_loop_ok; [reflexivity | | exact Hok].
  intros y' Hy'. apply Hr. lia.
Qed.

End RowLoop.

(** The closed form of a row is its transform by [encode]. *)
Lemma encode_rows_encoded (r1 r2 : list Z) :
  Forall uint16 r1 -> row_encoded r1 r2 (encode_rows r1 r2).
Proof.
  unfold row_encoded, encode_rows. intros H1. revert r2.
  induction H1 as [ | a r1 Ha _ IH]; intros [ | i r2]; cbn; try constructor.
  - cbn. apply encode_uint16, Ha.
  - apply IH.
Qed.

(** ** The run as a whole *)

(** The 2x1 raster of the specification's scenario. *)
Example main_2x1 :
  main world_2x1 =
    (Exit 0,
     [EvCreate 2 1 3; EvSetGeoTransform north_up; EvSetProjection (EPSG 3857);
      EvRead INBAND 0 CE_None; EvRead INBAND2 0 CE_None;
      EvWrite OUTBAND1 0 [0; 0] CE_None;
      EvWrite OUTBAND2 0 [0; 1] CE_None;
      EvWrite OUTBAND3 0 [3; 203] CE_None]).
Proof. reflexivity. Qed.

(** C6. For a raster of width W >= 1 and height H whose rows are all
    delivered, the run issues, for y = 0 .. H-1 in increasing order and once
    each, the read of row y of both input bands and then the write of row y
    of the three output bands, and the rows written are the per-pixel
    transform of the rows read. *)
Theorem driver_streams_rows (w : World) (band1 band2 : nat -> list Z) :
  argc w = 4 -> gtiff_driver w = true -> wf_world w = true ->
  (1 <= xsize w)%nat ->
  (forall y, (y < ysize w)%nat ->
             read_row w INBAND y = Some (band1 y) /\
             read_row w INBAND2 y = Some (band2 y)) ->
  exists px : nat -> list OutputPixel,
    (forall y, (y < ysize w)%nat ->
               row_encoded (band1 y) (band2 y) (px y) /\
               length (px y) = xsize w) /\
    main w =
      (Exit 0,
       setup w ++ flat_map (fun y => row_events w y (px y)) (seq 0 (ysize w))).
Proof.
  intros Hargc Hdrv Hwf _ Hreads.
  exists (fun y => encode_rows (band1 y) (band2 y)). split.
  - intros y Hy. destruct (wf_world_reads w Hwf) as [Hr _].
    destruct (Hr y Hy) as [Hr1 Hr2]. destruct (Hreads y Hy) as [E1 E2].
    rewrite E1 in Hr1. rewrite E2 in Hr2. cbn in Hr1, Hr2.
    apply row16b_spec in Hr1 as [Hl1 H1]. apply row16b_spec in Hr2 as [Hl2 H2].
    split; [apply encode_rows_encoded, H1 | ].
    unfold encode_rows. rewrite length_zip_with. lia.
  - rewrite main_runs by assumption. f_equal. f_equal.
    apply rows_trace_events. intros y Hy. apply Hreads. lia.
Qed.

Lemma driver_streams_rows_witness :
  exists px : nat -> list OutputPixel,
    (forall y, (y < 1)%nat ->
               row_encoded [0; 30001] [3; 3] (px y) /\ length (px y) = 2%nat) /\
    main world_2x1 =
      (Exit 0,
       setup world_2x1 ++ flat_map (fun y => row_events world_2x1 y (px y)) (seq 0 1)).
Proof.
  apply (driver_streams_rows world_2x1 (fun _ => [0; 30001]) (fun _ => [3; 3]));
    try reflexivity.
  - cbn. lia.
  - intros y Hy. cbn in Hy. destruct y; [split; reflexivity | lia].
Defined.

(** C7 (as amended). The status of a row read or row write is not looked
    at: in every run, whichever of these calls fail, each row gets its two
    reads and its three writes exactly once (no retry, no row left out), the
    rows after a failure are processed like the others, and the run ends
    with exit code 0. *)
Theorem io_failures_ignored (w : World) :
  argc w = 4 -> gtiff_driver w = true -> wf_world w = true ->
  exists t,
    main w = (Exit 0, t) /\
    call_of <$> t =
      [CallSetup; CallSetup; CallSetup] ++ flat_map (row_calls w) (seq 0 (ysize w)).
Proof.
  intros Hargc Hdrv Hwf. eexists. split; [apply main_runs; assumption | ].
  rewrite fmap_app, rows_trace_calls. reflexivity.
Qed.

Lemma io_failures_ignored_witness :
  exists t,
    main world_read_fails = (Exit 0, t) /\
    call_of <$> t =
      [CallSetup; CallSetup; CallSetup;
       CallRead INBAND 0 CE_Failure; CallRead INBAND2 0 CE_None;
       CallWrite OUTBAND1 0 CE_None; CallWrite OUTBAND2 0 CE_None;
       CallWrite OUTBAND3 0 CE_None;
       CallRead INBAND 1 CE_None; CallRead INBAND2 1 CE_None;
       CallWrite OUTBAND1 1 CE_None; CallWrite OUTBAND2 1 CE_None;
       CallWrite OUTBAND3 1 CE_None].
Proof.
  apply (io_failures_ignored world_read_fails); reflexivity.
Defined.

(** C7 as stated fails on a 1x2 raster whose first read fails: row 0 is
    written all the same, row 1 is read and written, and the exit code
    is 0. *)
Lemma io_failures_ignored_counterexample :
  wf_world world_read_fails = true /\
  main world_read_fails =
    (Exit 0,
     [EvCreate 1 2 3; EvSetGeoTransform north_up; EvSetProjection (EPSG 3857);
      EvRead INBAND 0 CE_Failure; EvRead INBAND2 0 CE_None;
      EvWrite OUTBAND1 0 [0] CE_None;
      EvWrite OUTBAND2 0 [0] CE_None;
      EvWrite OUTBAND3 0 [3] CE_None;
      EvRead INBAND 1 CE_None; EvRead INBAND2 1 CE_None;
      EvWrite OUTBAND1 1 [0] CE_None;
      EvWrite OUTBAND2 1 [1] CE_None;
      EvWrite OUTBAND3 1 [203] CE_None]) /\
  existsb failed (main world_read_fails).2 = true /\
  reads_after_failure (main world_read_fails).2 = true /\
  ~ (forall w,
       argc w = 4 -> gtiff_driver w = true -> wf_world w = true ->
       existsb failed (main w).2 = true ->
       (main w).1 <> Exit 0 /\ reads_after_failure (main w).2 = false).
Proof.
  repeat (split; [reflexivity | ]).
  intros Hclaim.
  destruct (Hclaim world_read_fails) as [Hexit _]; try reflexivity.
  now apply Hexit.
Qed.

(** ** The georeference of the output *)

Lemma float_zero_not_half : 0%float <> 0.5%float.
Proof.
  intros H.
  pose proof (f_equal (fun f => PrimFloat.ltb f 0.25%float) H) as H'.
  vm_compute in H'. discriminate H'.
Qed.

(** C8 (as amended). The geotransform set on the output is built from the
    origin (coefficients 0 and 3) and the pixel width (coefficient 1) read
    from the alert raster: these three are copied unmodified, coefficients 2
    and 4 are set to 0 and coefficient 5 to -1 times the pixel width, so the
    six coefficients equal those read when the input is north-up with square
    pixels.  The declared spatial reference is EPSG:3857 whatever the
    input's, these are the only georeferencing calls, and the rows read and
    written do not depend on the input's geotransform or projection. *)
Theorem output_georeference (w : World) :
  argc w = 4 -> gtiff_driver w = true -> wf_world w = true ->
  exists rows,
    (main w).2 =
      [EvCreate (xsize w) (ysize w) 3;
       EvSetGeoTransform
         {| gt0 := gt0 (in_geotransform w);
            gt1 := gt1 (in_geotransform w);
            gt2 := 0%float;
            gt3 := gt3 (in_geotransform w);
            gt4 := 0%float;
            gt5 := ((-1) * gt1 (in_geotransform w))%float |};
       EvSetProjection (EPSG 3857)] ++ rows /\
    call_of <$> rows = flat_map (row_calls w) (seq 0 (ysize w)) /\
    (gt2 (in_geotransform w) = 0%float ->
     gt4 (in_geotransform w) = 0%float ->
     gt5 (in_geotransform w) = ((-1) * gt1 (in_geotransform w))%float ->
     adfGeoTransform (in_geotransform w) = in_geotransform w) /\
    (forall gt' srs',
       (main (with_georef gt' srs' w)).2 =
         [EvCreate (xsize w) (ysize w) 3;
          EvSetGeoTransform (adfGeoTransform gt');
          EvSetProjection (EPSG 3857)] ++ rows).
Proof.
  intros Hargc Hdrv Hwf.
  exists (rows_trace w (ysize w) 0 (stack w)).
  split; [now rewrite main_runs by assumption | ].
  split; [apply rows_trace_calls | ].
  split.
  - destruct (in_geotransform w) as [g0 g1 g2 g3 g4 g5]. cbn.
    intros -> -> ->. reflexivity.
  - intros gt' srs'.
    rewrite (main_runs (with_georef gt' srs' w)) by assumption.
    cbn [snd]. rewrite rows_trace_georef. reflexivity.
Qed.

Lemma output_georeference_witness :
  exists rows,
    (main world_2x1).2 =
      [EvCreate 2 1 3; EvSetGeoTransform north_up; EvSetProjection (EPSG 3857)]
      ++ rows /\
    call_of <$> rows = flat_map (row_calls world_2x1) (seq 0 1) /\
    (0%float = 0%float -> 0%float = 0%float -> (-1)%float = ((-1) * 1)%float ->
     adfGeoTransform north_up = north_up) /\
    (forall gt' srs',
       (main (with_georef gt' srs' world_2x1)).2 =
         [EvCreate 2 1 3; EvSetGeoTransform (adfGeoTransform gt');
          EvSetProjection (EPSG 3857)] ++ rows).
Proof.
  apply (output_georeference world_2x1); reflexivity.
Defined.

(** C8 as stated fails on an input whose geotransform has a rotation term
    and pixels that are not square: (0, 1, 0.5, 0, 0, -2) is read and
    (0, 1, 0, 0, 0, -1) is set on the output. *)
Lemma output_georeference_counterexample :
  in_geotransform world_read_fails =
    {| gt0 := 0; gt1 := 1; gt2 := 0.5; gt3 := 0; gt4 := 0; gt5 := (-2) |}%float /\
  nth_error (main world_read_fails).2 1 =
    Some (EvSetGeoTransform
            {| gt0 := 0; gt1 := 1; gt2 := 0; gt3 := 0; gt4 := 0; gt5 := (-1) |}%float) /\
  ~ (forall w,
       argc w = 4 -> gtiff_driver w = true -> wf_world w = true ->
       In (EvSetGeoTransform (in_geotransform w)) (main w).2).
Proof.
  split; [reflexivity | ]. split; [reflexivity | ].
  intros Hclaim.
  specialize (Hclaim world_read_fails eq_refl eq_refl eq_refl).
  cbn in Hclaim.
  destruct Hclaim as [H | [H | Hrest]].
  - discriminate H.
  - apply float_zero_not_half. exact (f_equal (fun e =>
      match e with EvSetGeoTransform g => gt2 g | _ => 0%float end) H).
  - repeat (destruct Hrest as [H | Hrest]; [discriminate H | ]). exact Hrest.
Qed.

(** ** Further properties of the codec *)

(** X1. For an alert sample of 20000 or more, the day byte and the
    confidence byte are the two base-255 digits of the day offset
    [total_days], that is 255 * dayByte + confidenceByte gives the offset
    back, exactly when the sample is at most 39999; the day byte is then at
    most 39. *)
Theorem day_offset_recovered (alert intensity : Z) :
  uint16 alert -> 20000 <= alert ->
  exists p,
    encode alert intensity = inr p /\
    (255 * dayByte p + confidenceByte p = total_days alert <-> alert <= 39999) /\
    (alert <= 39999 -> 0 <= dayByte p <= 39).
Proof.
  intros Ha Hge. exists (encode_closed alert intensity).
  split; [apply encode_uint16; exact Ha | ].
  pose proof (total_days_range alert Ha) as Htd.
  unfold encode_closed. cbn [dayByte confidenceByte].
  destruct (Z.ltb_spec alert 20000) as [ | _]; [lia | ].
  assert (Hdigit : 255 * (total_days alert / 255) + (alert mod 10000) mod 255
                   = total_days alert
                   <-> (alert mod 10000) mod 255 = total_days alert mod 255).
  { pose proof (Z.div_mod (total_days alert) 255 ltac:(lia)). lia. }
  rewrite Hdigit. unfold total_days in *.
  destruct (Z.ltb_spec alert 20000) as [ | _]; [lia | ].
  destruct (Z.ltb_spec alert 30000) as [Hlt | Hge3].
  - rewrite (proj1 (low_digits_class alert)) by lia.
    split; [split; [lia | reflexivity] | ].
    intros _. Z.div_mod_to_equations. lia.
  - unfold uint16 in Ha. split; [apply low_digits_mod255; lia | ].
    intros Hle. Z.div_mod_to_equations. lia.
Qed.

Lemma day_offset_recovered_witness :
  exists p,
    encode 39999 0 = inr p /\
    (255 * dayByte p + confidenceByte p = 9999 <-> 39999 <= 39999) /\
    (39999 <= 39999 -> 0 <= dayByte p <= 39).
Proof.
  apply (day_offset_recovered 39999 0); unfold uint16; lia.
Defined.

(** X2. On alert samples of the documented range [20000, 39999] and
    intensity samples up to 55, [encode] is injective: the pixel determines
    both samples. *)
Theorem encode_injective (alert1 intensity1 alert2 intensity2 : Z) :
  20000 <= alert1 <= 39999 -> 20000 <= alert2 <= 39999 ->
  0 <= intensity1 <= 55 -> 0 <= intensity2 <= 55 ->
  encode alert1 intensity1 = encode alert2 intensity2 ->
  alert1 = alert2 /\ intensity1 = intensity2.
Proof.
  intros Ha1 Ha2 Hi1 Hi2.
  rewrite !encode_uint16 by (unfold uint16; lia).
  unfold encode_closed, total_days. intros Heq.
  injection Heq as Hday Hconf Hint. revert Hday Hconf Hint.
  destruct (Z.ltb_spec alert1 20000) as [ | _]; [lia | ].
  destruct (Z.ltb_spec alert2 20000) as [ | _]; [lia | ].
  destruct (low_digits_class alert1) as [HA1 HB1].
  destruct (low_digits_class alert2) as [HA2 HB2].
  destruct (Z.ltb_spec alert1 30000); destruct (Z.ltb_spec alert2 30000);
    rewrite ?HA1, ?HB1, ?HA2, ?HB2 by lia;
    rewrite !(Z.mod_small (_ + _) 256) by lia;
    intros Hday Hconf Hint; try lia.
  - split; [ | lia].
    pose proof (Z.div_mod (alert1 - 20000) 255 ltac:(lia)).
    pose proof (Z.div_mod (alert2 - 20000) 255 ltac:(lia)). lia.
  - split; [ | lia].
    pose proof (Z.div_mod (alert1 - 30000) 255 ltac:(lia)).
    pose proof (Z.div_mod (alert2 - 30000) 255 ltac:(lia)). lia.
Qed.

Lemma encode_injective_witness : 25500 = 25500 /\ 7 = 7.
Proof.
  apply (encode_injective 25500 7 25500 7); [lia | lia | lia | lia | reflexivity].
Defined.

(** X3. The intensity byte is the class offset plus the intensity, without
    wrap-around, exactly when the intensity is at most 255 (no alert), 155
    (alerts in [20000, 29999]) or 55 (alerts from 30000). *)
Theorem intensity_no_wrap_iff (alert intensity : Z) :
  uint16 alert -> uint16 intensity ->
  exists p,
    encode alert intensity = inr p /\
    (alert < 20000 ->
     (intensityByte p = intensity <-> intensity <= 255)) /\
    (20000 <= alert <= 29999 ->
     (intensityByte p = 100 + intensity <-> intensity <= 155)) /\
    (30000 <= alert ->
     (intensityByte p = 200 + intensity <-> intensity <= 55)).
Proof.
  intros Ha Hi. exists (encode_closed alert intensity).
  split; [apply encode_uint16; exact Ha | ].
  unfold encode_closed, uint16 in *. cbn [intensityByte].
  destruct (Z.ltb_spec alert 20000); [ | destruct (Z.ltb_spec alert 30000)];
    repeat split; intros; try lia; Z.div_mod_to_equations; lia.
Qed.

Lemma intensity_no_wrap_iff_witness :
  exists p,
    encode 30000 56 = inr p /\
    (30000 < 20000 -> (intensityByte p = 56 <-> 56 <= 255)) /\
    (20000 <= 30000 <= 29999 -> (intensityByte p = 100 + 56 <-> 56 <= 155)) /\
    (30000 <= 30000 -> (intensityByte p = 200 + 56 <-> 56 <= 55)).
Proof.
  apply (intensity_no_wrap_iff 30000 56); unfold uint16; lia.
Defined.

(** X4. Only the low eight bits of the intensity sample reach the pixel:
    [encode] gives the same result on [intensity] and on
    [intensity mod 256], for every alert. *)
Theorem encode_intensity_low_byte (alert intensity : Z) :
  encode alert (intensity mod 256) = encode alert intensity.
Proof.
  unfold encode, to_uint8.
  destruct (alert <? 20000).
  - now rewrite Z.mod_mod by lia.
  - destruct (confidence_digits alert) as [e | c]; [reflexivity | ].
    destruct ((20000 <=? alert) && (alert <=? 29999));
      now rewrite Z.add_mod_idemp_r by lia.
Qed.

Lemma zrange_In (n : nat) :
  forall lo z, lo <= z < lo + Z.of_nat n -> In z (zrange n lo).
Proof.
  induction n as [ | n IH]; intros lo z Hz; [lia | ].
  cbn [zrange]. destruct (Z.eq_dec lo z) as [-> | Hne]; [now left | right].
  apply IH. lia.
Qed.

(** Line 103 checked on every 16-bit sample. *)
Lemma confidence_digits_checked :
  forallb confidence_digits_check (zrange (Z.to_nat 65536) 0) = true.
Proof. vm_cast_no_check (@eq_refl bool true). Qed.

(** X5. The guard of line 96 is what keeps line 103 from throwing: on a
    16-bit sample the expression [stoi(to_string(s).substr(1)) % 255] throws
    [std::invalid_argument] exactly when the sample has one digit (0 to 9),
    and otherwise is the sample without its leading digit, modulo 255. *)
Theorem confidence_digits_guard (alert : Z) :
  uint16 alert ->
  confidence_digits alert =
    if alert <=? 9 then inl invalid_argument
    else inr (drop_leading_digit alert mod 255).
Proof.
  intros Ha.
  pose proof confidence_digits_checked as Hall.
  rewrite forallb_forall in Hall.
  assert (Hin : In alert (zrange (Z.to_nat 65536) 0)).
  { apply zrange_In. rewrite Z2Nat.id by lia. unfold uint16 in Ha. lia. }
  specialize (Hall alert Hin). unfold confidence_digits_check in Hall.
  destruct (confidence_digits alert) as [[ | ] | v].
  - now rewrite Hall.
  - discriminate Hall.
  - apply andb_true_iff in Hall as [H9 Hv].
    apply Z.ltb_lt in H9. apply Z.eqb_eq in Hv.
    destruct (Z.leb_spec alert 9); [lia | now rewrite Hv].
Qed.

Lemma confidence_digits_guard_witness :
  confidence_digits 7 = inl invalid_argument /\
  confidence_digits 19999 = inr (9999 mod 255).
Proof.
  split.
  - apply (confidence_digits_guard 7). unfold uint16. lia.
  - apply (confidence_digits_guard 19999). unfold uint16. lia.
Defined.

(** ** Further properties of the run *)



Lemma encode_closed_pixel_bytes (alert intensity : Z) :
  uint16 alert -> pixel_bytes (encode_closed alert intensity).
Proof.
  intros Ha. destruct (encode_closed_bytes alert intensity Ha) as (Hd & _ & Hi).
  split; [exact Hd | ]. split; [ | exact Hi].
  unfold encode_closed. cbn [confidenceByte].
  destruct (alert <? 20000); [lia | ]. Z.div_mod_to_equations. lia.
Qed.

Lemma encode_rows_bytes (r1 r2 : list Z) :
  Forall uint16 r1 -> Forall pixel_bytes (encode_rows r1 r2).
Proof.
  unfold encode_rows. intros H1. revert r2.
  induction H1 as [ | a r1 Ha _ IH]; intros [ | i r2]; cbn; constructor.
  - apply encode_closed_pixel_bytes, Ha.
  - apply IH.
Qed.

Section WrittenRows.

Variable w : World.

Lemma row_trace_write_ok (y : nat) (b : Buffers) :
  reads_ok w y -> bufs_ok (xsize w) b ->
  Forall (write_ok (xsize w)) (row_trace w y b).
Proof.
  intros [Hr1 Hr2] (H1 & H2 & _).
  destruct (after_read_ok w INBAND y _ Hr1 H1) as [Hl1 Hu1].
  destruct (after_read_ok w INBAND2 y _ Hr2 H2) as [Hl2 Hu2].
  pose proof (encode_rows_bytes _ (after_read w INBAND2 y (in2_data b)) Hu1) as Hpx.
  assert (Hlen : length (encode_rows (after_read w INBAND y (in1_data b))
                                     (after_read w INBAND2 y (in2_data b)))
                 = xsize w).
  { unfold encode_rows. rewrite length_zip_with. lia. }
  unfold row_trace, row_bufs. cbn [out_data1 out_data2 out_data3].
  repeat constructor; cbn; rewrite ?length_fmap; try exact Hlen;
    try discriminate; try (intros _);
    apply Forall_fmap; eapply Forall_impl; try exact Hpx;
    intros p (Hd & Hc & Hi); unfold uint8 in *; cbn; lia.
Qed.

Lemma rows_trace_write_ok (n : nat) :
  forall (y : nat) (b : Buffers),
    (forall y', (y <= y' < y + n)%nat -> reads_ok w y') ->
    bufs_ok (xsize w) b ->
    Forall (write_ok (xsize w)) (rows_trace w n y b).
Proof.
  induction n as [ | n IH]; intros y b Hr Hok; cbn [rows_trace]; [constructor | ].
  apply Forall_app. split.
  - apply row_trace_write_ok; [apply Hr; lia | exact Hok].
  - apply IH; [intros y' Hy'; apply Hr; lia | ].
    apply row_bufs_ok; [apply Hr; lia | exact Hok].
Qed.

(** The events of row [y] stand in the trace of any loop that passes it. *)
Lemma rows_trace_at (n : nat) :
  forall (y0 : nat) (b : Buffers) (y : nat),
    (y0 <= y < y0 + n)%nat ->
    exists pre b' post, rows_trace w n y0 b = pre ++ row_trace w y b' ++ post.
Proof.
  induction n as [ | n IH]; intros y0 b y Hy; [lia | ].
  cbn [rows_trace]. destruct (decide (y = y0)) as [-> | Hne].
  - exists [], b, (rows_trace w n (S y0) (row_bufs w y0 b)). reflexivity.
  - destruct (IH (S y0) (row_bufs w y0 b) y ltac:(lia)) as (pre & b' & post & ->).
    exists (row_trace w y0 b ++ pre), b', post. now rewrite <- app_assoc.
Qed.

Lemma row_trace_delivered (y : nat) (b : Buffers) (r1 r2 : list Z) :
  read_row w INBAND y = Some r1 -> read_row w INBAND2 y = Some r2 ->
  row_trace w y b = row_events w y (encode_rows r1 r2).
Proof.
  intros H1 H2. unfold row_trace, row_events, row_bufs, after_read, read_into.
  rewrite H1, H2. reflexivity.
Qed.

End WrittenRows.

(** X7. In every well-formed run, whichever reads or writes fail, each row
    handed to the sink has exactly [xsize] values, all of them bytes, and
    no value written to output band 2 is 255. *)
Theorem written_rows_are_bytes (w : World) :
  argc w = 4 -> gtiff_driver w = true -> wf_world w = true ->
  Forall (write_ok (xsize w)) (main w).2.
Proof.
  intros Hargc Hdrv Hwf. rewrite main_runs by assumption. cbn [snd].
  destruct (wf_world_reads w Hwf) as [Hr Hok].
  apply Forall_app. split.
  - unfold setup. repeat constructor.
  - apply rows_trace_write_ok; [ | exact Hok]. intros y' Hy'. apply Hr. lia.
Qed.

Lemma written_rows_are_bytes_witness :
  Forall (write_ok 1) (main world_read_fails).2.
Proof.
  apply (written_rows_are_bytes world_read_fails); reflexivity.
Defined.

(** X8. Rows are encoded independently: in every well-formed run, if the
    two reads of row y deliver their rows, then the three rows written for y
    are the per-pixel transform of exactly these two rows, whatever happened
    to the reads and writes of the other rows. *)
Theorem row_output_local (w : World) (y : nat) (r1 r2 : list Z) :
  argc w = 4 -> gtiff_driver w = true -> wf_world w = true ->
  (y < ysize w)%nat ->
  read_row w INBAND y = Some r1 -> read_row w INBAND2 y = Some r2 ->
  exists px pre post,
    row_encoded r1 r2 px /\
    length px = xsize w /\
    (main w).2 = pre ++ row_events w y px ++ post.
Proof.
  intros Hargc Hdrv Hwf Hy E1 E2.
  destruct (wf_world_reads w Hwf) as [Hr _].
  destruct (Hr y Hy) as [Hr1 Hr2]. rewrite E1 in Hr1. rewrite E2 in Hr2.
  cbn in Hr1, Hr2.
  apply row16b_spec in Hr1 as [Hl1 H1]. apply row16b_spec in Hr2 as [Hl2 H2].
  destruct (rows_trace_at w (ysize w) 0 (stack w) y ltac:(lia))
    as (pre & b' & post & Htr).
  exists (encode_rows r1 r2), (setup w ++ pre), post.
  split; [apply encode_rows_encoded, H1 | ].
  split; [unfold encode_rows; rewrite length_zip_with; lia | ].
  rewrite main_runs by assumption. cbn [snd].
  rewrite Htr, (row_trace_delivered w y b' r1 r2 E1 E2).
  now rewrite <- app_assoc.
Qed.

Lemma row_output_local_witness :
  exists px pre post,
    row_encoded [30001] [3] px /\
    length px = 1%nat /\
    (main world_read_fails).2 = pre ++ row_events world_read_fails 1 px ++ post.
Proof.
  apply (row_output_local world_read_fails 1 [30001] [3]);
    try reflexivity.
  cbn. lia.
Defined.
